(** * Apollo client provisioning and cache hydration

    A shallow embedding of
    [packages/headless/src/graphql/apolloClient.ts]: the module
    initialisation that resolves the endpoint, [createApolloClient],
    [initializeApollo], [addApolloState] and [useApollo].

    JavaScript data is embedded as a tree of values whose objects are
    finite maps from property names to values.  Module state, the
    clients that have been constructed and the caller-owned page-props
    objects are threaded explicitly through a [state] record, so that
    object identity (which client, which props object) is a location.

    Two collaborators are external packages, not code of this
    repository, and are embedded after their published behaviour:
    the [deepmerge] package (imported at line 6) and the
    [extract]/[restore] primitives of Apollo's in-memory cache. *)

From stdpp Require Import gmap strings list fin_maps pretty.
From Stdlib Require Import ZArith Bool.

#[local] Set Warnings "-register-all".
#[local] Open Scope string_scope.

(** ** JavaScript values *)

(** Every object is a bag of own enumerable properties; an array is an
    object flagged as such whose properties are its indices.  Numbers
    are restricted to integers (the cache stores JSON data; [NaN] does
    not occur in it). *)
Inductive value : Type :=
  | VUndefined
  | VNull
  | VBool (b : bool)
  | VNum (n : Z)
  | VStr (s : string)
  | VObject (is_array : bool) (fields : gmap string value).


(** [{k0: v0, ...}] *)
Definition object (fields : gmap string value) : value :=
  VObject false fields.

(** The boolean coercion used by [if (x)], [!x] and [||]. *)
Definition truthy (v : value) : bool :=
  match v with
  | VUndefined | VNull => false
  | VBool b => b
  | VNum n => negb (n =? 0)%Z
  | VStr s => negb (String.eqb s EmptyString)
  | VObject _ _ => true
  end.

(** [Array.isArray(v)] *)
Definition isArray (v : value) : bool :=
  match v with VObject a _ => a | _ => false end.

(** Own enumerable properties, [Object.keys(v)] with their values; a
    number or a boolean has none. *)
Definition own_fields (v : value) : gmap string value :=
  match v with VObject _ f => f | _ => ∅ end.

(** [key in v], guarded as in deepmerge's [propertyIsOnObject]: on a
    primitive the [in] operator throws and the guard answers false. *)
Definition propertyIsOnObject (v : value) (key : string) : bool :=
  bool_decide (is_Some (own_fields v !! key)).

(** [v[key]] for an object [v]. *)
Definition get (v : value) (key : string) : value :=
  default VUndefined (own_fields v !! key).

(** A measure for recursion on values. *)
Fixpoint value_size (v : value) : nat :=
  match v with
  | VObject _ f => S (map_fold (fun _ v' acc => value_size v' + acc) 0 f)
  | _ => 0
  end.

(** ** Completions *)

Inductive exn : Type :=
  | Error (message : string)
  | ReferenceError (message : string)
  | TypeError (message : string).

Inductive completion (A : Type) : Type :=
  | Normal (a : A)
  | Throw (e : exn).
Arguments Normal {A} a.
Arguments Throw {A} e.

(** [o[key] = x] in strict-mode code (a module is always strict): on an
    object the property is created or overwritten, on anything else the
    assignment throws.  [key] is a property name, not an array index. *)
Definition set_prop (o : value) (key : string) (x : value) : completion value :=
  match o with
  | VObject a f => Normal (VObject a (<[key := x]> f))
  | VUndefined | VNull =>
      Throw (TypeError "Cannot set properties of undefined or null")
  | _ => Throw (TypeError "Cannot create property on a primitive value")
  end.

(** ** The deepmerge package

    [deepmerge(target, source, options)] builds a new value: when one
    side is an array and the other is not, a clone of [source]; when
    both are arrays, [options.arrayMerge(target, source)]; otherwise
    [mergeObject]: the properties of [target] are cloned into a fresh
    destination, then every property of [source] overwrites its entry,
    recursively merged when the key is on [target] and the source
    value is mergeable.

    Keys are ordinary data keys: deepmerge's refusal to copy a key that
    [target] inherits from [Object.prototype] is outside the model. *)

(** [isMergeableObject]: a non-null object (dates, regular expressions
    and React elements do not occur in cache data). *)
Definition isMergeableObject (v : value) : bool :=
  match v with VObject _ _ => true | _ => false end.

(** [emptyTarget(val)] *)
Definition emptyTarget (val : value) : value :=
  if isArray val then VObject true ∅ else VObject false ∅.

(** [cloneUnlessOtherwiseSpecified(value, options)], which is
    [deepmerge(emptyTarget(value), value, options)] on a mergeable
    value ([cloneUnlessOtherwiseSpecified_deepmerge] below) and the
    value itself otherwise. *)
Fixpoint cloneUnlessOtherwiseSpecified
    (v : value) (arrayMerge : value -> value -> value) : value :=
  match v with
  | VObject true _ => arrayMerge (VObject true ∅) v
  | VObject false f =>
      VObject false ((fun x => cloneUnlessOtherwiseSpecified x arrayMerge) <$> f)
  | _ => v
  end.

Fixpoint deepmerge (target source : value)
    (arrayMerge : value -> value -> value) {struct source} : value :=
  let sourceIsArray := isArray source in
  let targetIsArray := isArray target in
  let sourceAndTargetTypesMatch := Bool.eqb sourceIsArray targetIsArray in
  if negb sourceAndTargetTypesMatch then
    cloneUnlessOtherwiseSpecified source arrayMerge
  else if sourceIsArray then
    arrayMerge target source
  else
    (* mergeObject(target, source, options); every source that reaches
       deepmerge is an object: the extracted cache at the top, and
       below it only values that passed isMergeableObject *)
    let destination :=
      (fun x => cloneUnlessOtherwiseSpecified x arrayMerge) <$> own_fields target in
    VObject false
      (match source with
       | VObject _ sf =>
           map_imap (fun key sv =>
             Some (if propertyIsOnObject target key && isMergeableObject sv
                   then deepmerge (get target key) sv arrayMerge
                   else cloneUnlessOtherwiseSpecified sv arrayMerge)) sf
       | _ => ∅
       end ∪ destination).

(** ** Module initialisation (lines 8 to 19) *)

Definition APOLLO_STATE_PROP_NAME : string := "__APOLLO_STATE__".

(** Whether the code runs in a browser, where the global [window]
    exists, or on the server, where the identifier is not declared. *)
Inductive context : Type := Server | Browser.

(** Evaluating the identifier [window]. *)
Definition window (ctx : context) : completion value :=
  match ctx with
  | Browser => Normal (VObject false ∅)
  | Server => Throw (ReferenceError "window is not defined")
  end.

(** [typeof window === 'undefined'], which never throws. *)
Definition typeof_window_is_undefined (ctx : context) : bool :=
  match ctx with Server => true | Browser => false end.

(** The two variables of [process.env] that the module reads. *)
Record process_env : Type := {
  NEXT_PUBLIC_WORDPRESS_API_URL : option string;
  WORDPRESS_API_URL : option string
}.

Definition env_value (o : option string) : value :=
  match o with Some s => VStr s | None => VUndefined end.

(** [a || b] *)
Definition js_or (a b : value) : value := if truthy a then a else b.

Definition client_side_message : string :=
  "NEXT_PUBLIC_WORDPRESS_API_URL environment variable is not set. Please set it to your WPGraphQL endpoint if you wish to use client-side requests.".

Definition server_side_message : string :=
  "WORDPRESS_API_URL and NEXT_PUBLIC_WORDPRESS_API_URL environment variables are not set. Please set WORDPRESS_API_URL (or NEXT_PUBLIC_WORDPRESS_API_URL if you wish to also use client-side requests) to your WPGraphQL endpoint.".

(** Evaluation of the module body: the value bound to [API_URL] when
    the module loads, or the exception that aborts the load. *)
Definition load_module (ctx : context) (env : process_env) : completion value :=
  let API_URL :=
    js_or (env_value (NEXT_PUBLIC_WORDPRESS_API_URL env))
          (env_value (WORDPRESS_API_URL env)) in
  if negb (truthy API_URL) then
    match window ctx with
    | Throw e => Throw e
    | Normal w =>
        if truthy w then Throw (Error client_side_message)
        else Throw (Error server_side_message)
    end
  else Normal API_URL.

(** ** Program state *)

(** An [ApolloClient] object: its [ssrMode] flag, the [uri] of its
    link and the normalized contents of its [InMemoryCache]. *)
Record ApolloClient : Type := {
  ssrMode : bool;
  uri : value;
  cache : gmap string value
}.

(** [apolloClient] is the module variable of line 11 ([None] while it
    is undefined), [clients] the clients constructed so far (a client
    is referred to by its position) and [objects] the props objects
    owned by the callers of [addApolloState] and [useApollo]. *)
Record state : Type := {
  apolloClient : option nat;
  clients : list ApolloClient;
  objects : gmap nat (gmap string value)
}.

(** The state in which the module leaves the program once loaded. *)
Definition initial_state : state :=
  {| apolloClient := None; clients := []; objects := ∅ |}.

(** A reference of type [{ [prop: string]: any }], possibly absent. *)
Inductive jsref : Type :=
  | RUndefined
  | RNull
  | RObject (l : nat).

Definition client_cache (c : nat) (σ : state) : gmap string value :=
  from_option cache ∅ (clients σ !! c).

(** [client.cache.extract()]: the contents as a plain object. *)
Definition extract (c : nat) (σ : state) : value :=
  VObject false (client_cache c σ).

(** [client.cache.restore(data)]: [if (data)] the contents are
    replaced by the properties of [data]. *)
Definition restore (c : nat) (data : value) (σ : state) : state :=
  if truthy data then
    {| apolloClient := apolloClient σ;
       clients :=
         alter (fun cl => {| ssrMode := ssrMode cl; uri := uri cl;
                             cache := own_fields data |}) c (clients σ);
       objects := objects σ |}
  else σ.

(** Line 72: the [arrayMerge] option given to [deepmerge]. *)
Definition overwriteMerge (target source : value) : value := source.

Section Provisioning.

Variable ctx : context.
Variable API_URL : value.

(** Lines 24 to 32. *)
Definition createApolloClient (σ : state) : nat * state :=
  (length (clients σ),
   {| apolloClient := apolloClient σ;
      clients := clients σ ++
        [ {| ssrMode := typeof_window_is_undefined ctx;
             uri := API_URL;
             cache := ∅ |} ];
      objects := objects σ |}).

(** Lines 63 to 90.  An omitted or [undefined] argument takes the
    default [null]. *)
Definition initializeApollo (initialState : value) (σ : state) : nat * state :=
  let initialState :=
    match initialState with VUndefined => VNull | _ => initialState end in
  (* apolloClient ?? createApolloClient() *)
  let '(_apolloClient, σ) :=
    match apolloClient σ with
    | Some c => (c, σ)
    | None => createApolloClient σ
    end in
  let σ :=
    if truthy initialState then
      let existingCache := extract _apolloClient σ in
      let data := deepmerge initialState existingCache overwriteMerge in
      restore _apolloClient data σ
    else σ in
  if typeof_window_is_undefined ctx then (_apolloClient, σ)
  else
    let σ :=
      match apolloClient σ with
      | None => {| apolloClient := Some _apolloClient;
                   clients := clients σ; objects := objects σ |}
      | Some _ => σ
      end in
    (_apolloClient, σ).

(** [initializeApollo] called once per snapshot, in order; the clients
    returned, and the final state. *)
Fixpoint initializeApollo_each (snapshots : list value) (σ : state)
    : list nat * state :=
  match snapshots with
  | [] => ([], σ)
  | s :: rest =>
      let '(c, σ) := initializeApollo s σ in
      let '(cs, σ) := initializeApollo_each rest σ in
      (c :: cs, σ)
  end.

(** [pageProps?.props] and [pageProps[key]] read through a reference. *)
Definition deref (p : nat) (σ : state) : gmap string value :=
  default ∅ (objects σ !! p).

Definition optional_chain (pageProps : jsref) (key : string) (σ : state) : value :=
  match pageProps with
  | RObject l => default VUndefined (deref l σ !! key)
  | _ => VUndefined
  end.

Definition member (pageProps : jsref) (key : string) (σ : state) : completion value :=
  match pageProps with
  | RObject l => Normal (default VUndefined (deref l σ !! key))
  | _ => Throw (TypeError "Cannot read properties of undefined or null")
  end.

(** Lines 110 to 116.  The nested [props] object is held inside the
    object [pageProps] refers to; assigning to one of its properties
    updates it in place there. *)
Definition addApolloState (client : nat) (pageProps : jsref) (σ : state)
    : completion (jsref * state) :=
  if truthy (optional_chain pageProps "props" σ) then
    match pageProps with
    | RObject l =>
        let props := default VUndefined (deref l σ !! "props") in
        match set_prop props APOLLO_STATE_PROP_NAME (extract client σ) with
        | Normal props' =>
            Normal (pageProps,
                    {| apolloClient := apolloClient σ;
                       clients := clients σ;
                       objects := <[l := <["props" := props']> (deref l σ)]> (objects σ) |})
        | Throw e => Throw e
        end
    | _ => Normal (pageProps, σ)
    end
  else Normal (pageProps, σ).

(** Lines 123 to 127, on the render that runs the factory given to
    [useMemo]. *)
Definition useApollo (pageProps : jsref) (σ : state) : completion (nat * state) :=
  match member pageProps APOLLO_STATE_PROP_NAME σ with
  | Normal state => Normal (initializeApollo state σ)
  | Throw e => Throw e
  end.

End Provisioning.

(** ** Vocabulary of the statements *)

(** The memoized client, when there is one, has been constructed. *)
Definition state_wf (σ : state) : Prop :=
  forall c, apolloClient σ = Some c -> c < length (clients σ).


(** The contents of a cache that held [existing] once the snapshot
    [s] has been through lines 68 to 83. *)
Definition hydrated (s : value) (existing : gmap string value) : gmap string value :=
  if truthy s
  then own_fields (deepmerge s (VObject false existing) overwriteMerge)
  else existing.



(** "[addApolloState] stores the snapshot under the reserved key of a
    truthy [props] and returns [pageProps]; otherwise it returns
    [pageProps] and changes nothing." *)
Definition embeds_snapshot (client : nat) (pageProps : jsref) (σ : state) : Prop :=
  if truthy (optional_chain pageProps "props" σ) then
    exists σ',
      addApolloState client pageProps σ = Normal (pageProps, σ') /\
      own_fields (optional_chain pageProps "props" σ') !! APOLLO_STATE_PROP_NAME
        = Some (extract client σ)
  else addApolloState client pageProps σ = Normal (pageProps, σ).

(** "[useApollo] on the object returned by [addApolloState] reads an
    undefined snapshot and initializes with no snapshot." *)
Definition reads_no_snapshot (ctx : context) (API_URL : value)
    (client : nat) (pageProps : jsref) (σ : state) : Prop :=
  forall p' σ',
    addApolloState client pageProps σ = Normal (p', σ') ->
    member p' APOLLO_STATE_PROP_NAME σ' = Normal VUndefined /\
    useApollo ctx API_URL p' σ' = Normal (initializeApollo ctx API_URL VUndefined σ').

(** The state after the rendering layer has handed the [props] object
    of [pageProps] to a component as the object [l]. *)
Definition unwrap_props (pageProps : jsref) (l : nat) (σ : state) : state :=
  {| apolloClient := apolloClient σ;
     clients := clients σ;
     objects := <[l := own_fields (optional_chain pageProps "props" σ)]> (objects σ) |}.

(** ** Sample data *)

Definition endpoint : value := VStr "https://example.com/graphql".

(** A browser session whose memoized client holds [contents]. *)
Definition session (contents : gmap string value) : state :=
  {| apolloClient := Some 0;
     clients := [ {| ssrMode := false; uri := endpoint; cache := contents |} ];
     objects := ∅ |}.

(** A state in which [pageProps] is the object [0]. *)
Definition page (contents pageProps : gmap string value) : state :=
  {| apolloClient := Some 0;
     clients := [ {| ssrMode := false; uri := endpoint; cache := contents |} ];
     objects := {[ 0 := pageProps ]} |}.

Definition post_A : gmap string value :=
  {[ "Post:1" := object {[ "title" := VStr "A" ]} ]}.





Definition no_endpoint : process_env :=
  {| NEXT_PUBLIC_WORDPRESS_API_URL := None; WORDPRESS_API_URL := None |}.


(** An environment with only the server-side variable, and one in
    which the public variable is set to the empty string. *)
Definition server_only_env : process_env :=
  {| NEXT_PUBLIC_WORDPRESS_API_URL := None;
     WORDPRESS_API_URL := Some "https://example.com/graphql" |}.

Definition empty_public_env : process_env :=
  {| NEXT_PUBLIC_WORDPRESS_API_URL := Some EmptyString;
     WORDPRESS_API_URL := Some "https://example.com/graphql" |}.



(** * Properties *)

(** ** Values *)

Lemma value_size_lookup a (f : gmap string value) k v :
  f !! k = Some v -> value_size v < value_size (VObject a f).
Proof.
  intros Hk. simpl. apply Nat.lt_succ_r.
  rewrite <- (insert_delete_id f k v Hk).
  rewrite map_fold_insert_L.
  - lia.
  - intros. lia.
  - apply lookup_delete_eq.
Qed.

(** Induction on a value with the property available on every field of
    an object. *)
Lemma value_fields_ind (P : value -> Prop) :
  P VUndefined -> P VNull -> (forall b, P (VBool b)) ->
  (forall n, P (VNum n)) -> (forall s, P (VStr s)) ->
  (forall a f, (forall k v, f !! k = Some v -> P v) -> P (VObject a f)) ->
  forall v, P v.
Proof.
  intros Hu Hn Hb Hz Hs Hobj v.
  remember (value_size v) as n eqn:Hsize.
  revert v Hsize.
  induction n as [n IH] using lt_wf_ind.
  intros [ | | b | z | s | a f] Hsize; auto.
  apply Hobj. intros k v Hk.
  apply (IH (value_size v)); [ | reflexivity].
  subst n. eapply value_size_lookup, Hk.
Qed.

(** ** deepmerge *)

(** The clone is the merge into an empty target of the same kind. *)
Lemma cloneUnlessOtherwiseSpecified_deepmerge v am :
  cloneUnlessOtherwiseSpecified v am =
  if isMergeableObject v then deepmerge (emptyTarget v) v am else v.
Proof.
  destruct v as [ | | b | z | s | [|] f]; try reflexivity.
  cbn [isMergeableObject emptyTarget isArray deepmerge cloneUnlessOtherwiseSpecified
       Bool.eqb negb own_fields].
  f_equal. rewrite fmap_empty, (right_id_L ∅ (∪)).
  apply map_eq. intros k.
  rewrite map_lookup_imap, lookup_fmap.
  destruct (f !! k) as [x|]; reflexivity.
Qed.

(** With [overwriteMerge], cloning copies a value faithfully. *)
Lemma clone_overwrite v :
  cloneUnlessOtherwiseSpecified v overwriteMerge = v.
Proof.
  induction v as [ | | b | z | s | a f IH] using value_fields_ind; try reflexivity.
  destruct a; [reflexivity | ].
  cbn [cloneUnlessOtherwiseSpecified]. f_equal.
  apply map_eq. intros k. rewrite lookup_fmap.
  destruct (f !! k) as [x|] eqn:Hk; [ | reflexivity].
  cbn. f_equal. eapply IH, Hk.
Qed.

Lemma clone_overwrite_fmap (f : gmap string value) :
  (fun x => cloneUnlessOtherwiseSpecified x overwriteMerge) <$> f = f.
Proof.
  apply map_eq. intros k. rewrite lookup_fmap.
  destruct (f !! k); cbn; [ | reflexivity].
  f_equal. apply clone_overwrite.
Qed.

(** An array source is returned as it is, whatever the target. *)
Lemma deepmerge_array_source t f :
  deepmerge t (VObject true f) overwriteMerge = VObject true f.
Proof. destruct t as [ | | b | z | s | [|] tf]; reflexivity. Qed.

(** A plain-object source survives unchanged against an array target. *)
Lemma deepmerge_array_target tf sf :
  deepmerge (VObject true tf) (VObject false sf) overwriteMerge = VObject false sf.
Proof.
  cbn [deepmerge isArray Bool.eqb negb cloneUnlessOtherwiseSpecified].
  by rewrite clone_overwrite_fmap.
Qed.

(** The merge of a plain-object source into a target that is not an
    array, property by property. *)
Lemma deepmerge_object_lookup t sf k :
  isArray t = false ->
  own_fields (deepmerge t (VObject false sf) overwriteMerge) !! k =
  match sf !! k with
  | Some sv =>
      Some (if propertyIsOnObject t k && isMergeableObject sv
            then deepmerge (get t k) sv overwriteMerge else sv)
  | None => own_fields t !! k
  end.
Proof.
  intros Ht.
  cbn [deepmerge isArray]. rewrite Ht.
  cbn [Bool.eqb negb own_fields].
  rewrite clone_overwrite_fmap, lookup_union, map_lookup_imap.
  destruct (sf !! k) as [sv|]; cbn.
  - rewrite clone_overwrite. by destruct (own_fields t !! k).
  - by destruct (own_fields t !! k).
Qed.

Lemma deepmerge_object_shape t sf :
  isArray t = false ->
  deepmerge t (VObject false sf) overwriteMerge =
  VObject false (own_fields (deepmerge t (VObject false sf) overwriteMerge)).
Proof. intros Ht. cbn [deepmerge isArray]. by rewrite Ht. Qed.



(** Merging a value into itself changes nothing. *)
Lemma deepmerge_self v :
  isMergeableObject v = true -> deepmerge v v overwriteMerge = v.
Proof.
  induction v as [ | | b | z | s | a f IH] using value_fields_ind; try discriminate.
  intros _. destruct a; [apply deepmerge_array_source | ].
  rewrite deepmerge_object_shape by done. f_equal.
  apply map_eq. intros k. rewrite deepmerge_object_lookup by done.
  unfold propertyIsOnObject, get. cbn [own_fields].
  destruct (f !! k) as [x|] eqn:Hk; [ | reflexivity].
  rewrite bool_decide_eq_true_2 by eauto. cbn.
  destruct (isMergeableObject x) eqn:Hx; [ | reflexivity].
  f_equal. by eapply IH.
Qed.





(** Whatever the snapshot, the merged data is a plain object. *)
Lemma deepmerge_cache_shape s ef :
  deepmerge s (VObject false ef) overwriteMerge =
  VObject false (own_fields (deepmerge s (VObject false ef) overwriteMerge)).
Proof.
  destruct (isArray s) eqn:Hs.
  - destruct s as [ | | ? | ? | ? | [|] tf]; try discriminate.
    by rewrite deepmerge_array_target.
  - by apply deepmerge_object_shape.
Qed.

Lemma deepmerge_cache_truthy s ef :
  truthy (deepmerge s (VObject false ef) overwriteMerge) = true.
Proof. by rewrite deepmerge_cache_shape. Qed.

(** ** The cache primitives *)


Lemma client_cache_restore_ne c c' data σ :
  c <> c' -> client_cache c' (restore c data σ) = client_cache c' σ.
Proof.
  intros Hne. unfold restore, client_cache.
  destruct (truthy data); [ | reflexivity]. cbn.
  by rewrite list_lookup_alter_ne.
Qed.

(** Restoring the contents a client already has changes nothing. *)
Lemma restore_same c data σ :
  truthy data = true -> own_fields data = client_cache c σ ->
  restore c data σ = σ.
Proof.
  intros Hd Hsame. unfold restore. rewrite Hd.
  destruct σ as [memo cls objs]. cbn in *. f_equal.
  apply list_eq. intros i.
  destruct (decide (i = c)) as [->|Hne].
  - rewrite list_lookup_alter_eq. unfold client_cache in Hsame. cbn in Hsame.
    destruct (cls !! c) as [[m u ch]|]; [ | reflexivity].
    cbn in *. by rewrite Hsame.
  - by rewrite list_lookup_alter_ne.
Qed.

Lemma restore_apolloClient c data σ :
  apolloClient (restore c data σ) = apolloClient σ.
Proof. unfold restore. by destruct (truthy data). Qed.

Lemma restore_objects c data σ :
  objects (restore c data σ) = objects σ.
Proof. unfold restore. by destruct (truthy data). Qed.

Lemma restore_length c data σ :
  length (clients (restore c data σ)) = length (clients σ).
Proof.
  unfold restore. destruct (truthy data); [ | reflexivity].
  cbn. apply length_alter.
Qed.

(** ** initializeApollo *)

(** Without a snapshot the call only provisions the client: the
    memoized one as it is, or a new one with an empty cache, memoized
    in the browser only. *)
Lemma initializeApollo_absent ctx url σ :
  initializeApollo ctx url VUndefined σ =
  match apolloClient σ with
  | Some c => (c, σ)
  | None =>
      (length (clients σ),
       {| apolloClient :=
            if typeof_window_is_undefined ctx then None
            else Some (length (clients σ));
          clients := clients σ ++
            [ {| ssrMode := typeof_window_is_undefined ctx; uri := url; cache := ∅ |} ];
          objects := objects σ |})
  end.
Proof.
  unfold initializeApollo. cbn [truthy].
  destruct (apolloClient σ) as [c|] eqn:Hmemo.
  - destruct ctx; cbn; [reflexivity | ]. by rewrite Hmemo.
  - unfold createApolloClient. destruct ctx; cbn; by rewrite Hmemo.
Qed.

(** With a snapshot the call provisions the client in the same way and,
    exactly when the snapshot is truthy, restores its cache from the
    merge of the snapshot with what the cache holds. *)
Lemma initializeApollo_hydrates ctx url s σ :
  initializeApollo ctx url s σ =
  (let '(c, σ0) := initializeApollo ctx url VUndefined σ in
   (c, if truthy s
       then restore c (deepmerge s (extract c σ0) overwriteMerge) σ0
       else σ0)).
Proof.
  destruct (truthy s) eqn:Hs.
  - assert (match s with VUndefined => VNull | _ => s end = s) as Hdef
      by (by destruct s).
    unfold initializeApollo at 1. rewrite Hdef, Hs.
    rewrite initializeApollo_absent.
    destruct (apolloClient σ) as [c|] eqn:Hmemo.
    + destruct ctx; cbn; [reflexivity | ].
      by rewrite restore_apolloClient, Hmemo.
    + unfold createApolloClient, extract, restore.
      rewrite !deepmerge_cache_truthy.
      destruct ctx; cbn; by rewrite ?Hmemo.
  - assert (truthy (match s with VUndefined => VNull | _ => s end) = false) as Hdef
      by (by destruct s).
    unfold initializeApollo. rewrite Hdef. cbn [truthy].
    by destruct (apolloClient σ), ctx; cbn; destruct (apolloClient σ).
Qed.



Lemma initializeApollo_memoized ctx url s σ c :
  apolloClient σ = Some c ->
  initializeApollo ctx url s σ =
  (c, if truthy s
      then restore c (deepmerge s (extract c σ) overwriteMerge) σ
      else σ).
Proof.
  intros Hmemo.
  by rewrite initializeApollo_hydrates, initializeApollo_absent, Hmemo.
Qed.

Lemma initializeApollo_fresh ctx url s σ :
  apolloClient σ = None ->
  initializeApollo ctx url s σ =
  (length (clients σ),
   {| apolloClient :=
        if typeof_window_is_undefined ctx then None
        else Some (length (clients σ));
      clients := clients σ ++
        [ {| ssrMode := typeof_window_is_undefined ctx; uri := url;
             cache := hydrated s ∅ |} ];
      objects := objects σ |}).
Proof.
  intros Hmemo.
  rewrite initializeApollo_hydrates, initializeApollo_absent, Hmemo.
  unfold hydrated. destruct (truthy s); [ | reflexivity].
  unfold restore, extract, client_cache. cbn [clients].
  rewrite lookup_app_r, Nat.sub_diag by lia. cbn [lookup list_lookup from_option cache].
  rewrite deepmerge_cache_truthy. cbn [apolloClient clients objects].
  do 2 f_equal.
  rewrite <- (Nat.add_0_r (length (clients σ))) at 1.
  by rewrite alter_app_r.
Qed.




(** ** Idempotence of hydration *)


(** ** An absent snapshot *)

(** C6: with no snapshot, either omitted (undefined) or the default
    [null], [initializeApollo] throws nothing and performs no merge or
    restore: it returns the memoized client with the state untouched,
    or a newly created client whose cache is the empty one it was
    created with. *)
Theorem C6_absent_snapshot_returns_client_unmodified ctx url σ :
  initializeApollo ctx url VNull σ = initializeApollo ctx url VUndefined σ /\
  initializeApollo ctx url VUndefined σ =
  match apolloClient σ with
  | Some c => (c, σ)
  | None =>
      (length (clients σ),
       {| apolloClient :=
            if typeof_window_is_undefined ctx then None
            else Some (length (clients σ));
          clients := clients σ ++
            [ {| ssrMode := typeof_window_is_undefined ctx; uri := url; cache := ∅ |} ];
          objects := objects σ |})
  end.
Proof.
  split; [ | apply initializeApollo_absent].
  rewrite (initializeApollo_hydrates ctx url VNull). cbn [truthy].
  by destruct (initializeApollo ctx url VUndefined σ).
Qed.



(** ** Truthiness of the snapshot *)


(** ** The merge rule *)






(** ** Loading the module without an endpoint *)

(** C3: on the server, with neither variable set, loading the module
    does not raise the intended configuration error: evaluating
    [window] in [if (window)] throws a [ReferenceError] before either
    message is chosen, and no context or environment makes the load
    raise the server-side message.  In the browser the client-side
    message is raised as intended. *)
Theorem C3_server_load_throws_reference_error :
  load_module Server no_endpoint = Throw (ReferenceError "window is not defined") /\
  (forall ctx env, load_module ctx env <> Throw (Error server_side_message)) /\
  load_module Browser no_endpoint = Throw (Error client_side_message) /\
  client_side_message <> server_side_message.
Proof.
  repeat split; try reflexivity; try discriminate.
  intros ctx env. unfold load_module.
  destruct (truthy (js_or _ _)) eqn:Hurl; cbn [negb].
  - intros [= Heq].
  - destruct ctx; cbn; discriminate.
Qed.

(** ** Server renders *)




(** ** The browser singleton *)




(** ** Embedding the snapshot into page props *)

Lemma optional_chain_insert l o σ memo cls key :
  optional_chain (RObject l) key
    {| apolloClient := memo; clients := cls; objects := <[l := o]> (objects σ) |}
  = default VUndefined (o !! key).
Proof. unfold optional_chain, deref. cbn. by rewrite lookup_insert_eq. Qed.

(** What [addApolloState] does when [props] is an object. *)
Lemma addApolloState_object client l σ a f :
  deref l σ !! "props" = Some (VObject a f) ->
  addApolloState client (RObject l) σ =
  Normal (RObject l,
          {| apolloClient := apolloClient σ;
             clients := clients σ;
             objects :=
               <[l := <["props" := VObject a (<[APOLLO_STATE_PROP_NAME := extract client σ]> f)]>
                        (deref l σ)]> (objects σ) |}).
Proof.
  intros Hprops. unfold addApolloState, optional_chain. by rewrite Hprops.
Qed.

(** What [addApolloState] does when [props] is missing or falsy. *)
Lemma addApolloState_falsy client pageProps σ :
  truthy (optional_chain pageProps "props" σ) = false ->
  addApolloState client pageProps σ = Normal (pageProps, σ).
Proof. intros Hfalsy. unfold addApolloState. by rewrite Hfalsy. Qed.

(** A truthy [props] that is not an object cannot take the entry. *)
Lemma addApolloState_primitive client pageProps σ :
  truthy (optional_chain pageProps "props" σ) = true ->
  isMergeableObject (optional_chain pageProps "props" σ) = false ->
  exists e, addApolloState client pageProps σ = Throw e.
Proof.
  intros Htruthy Hprim. unfold addApolloState. rewrite Htruthy.
  destruct pageProps as [ | | l]; try discriminate.
  unfold optional_chain in *.
  destruct (default VUndefined (deref l σ !! "props")); try discriminate;
    cbn; eauto.
Qed.

(** C7, as amended: when [pageProps.props] is an object,
    [addApolloState] stores the snapshot of the client's current cache
    under [__APOLLO_STATE__] in it and returns [pageProps]; when
    [pageProps.props] is missing or falsy it returns [pageProps] with
    nothing changed.  (The statement is about a [props] that is truthy
    only if it is an object.) *)
Theorem C7_addApolloState_embeds_snapshot client pageProps σ :
  truthy (optional_chain pageProps "props" σ)
    = isMergeableObject (optional_chain pageProps "props" σ) ->
  embeds_snapshot client pageProps σ.
Proof.
  intros Hobject. unfold embeds_snapshot.
  destruct (truthy (optional_chain pageProps "props" σ)) eqn:Htruthy;
    [ | by apply addApolloState_falsy].
  destruct pageProps as [ | | l]; try discriminate.
  unfold optional_chain in Htruthy, Hobject.
  destruct (deref l σ !! "props") as [props|] eqn:Hprops; [ | discriminate].
  cbn [default] in *.
  destruct props as [ | | ? | ? | ? | a f]; try discriminate.
  eexists. split; [by apply addApolloState_object | ].
  rewrite optional_chain_insert, lookup_insert_eq. cbn.
  apply lookup_insert_eq.
Qed.

Lemma C7_addApolloState_embeds_snapshot_witness :
  truthy (optional_chain (RObject 0) "props" (page post_A {[ "props" := object ∅ ]}))
    = isMergeableObject
        (optional_chain (RObject 0) "props" (page post_A {[ "props" := object ∅ ]})) /\
  embeds_snapshot 0 (RObject 0) (page post_A {[ "props" := object ∅ ]}).
Proof.
  split; [reflexivity | ].
  apply (C7_addApolloState_embeds_snapshot 0 (RObject 0)
           (page post_A {[ "props" := object ∅ ]})).
  reflexivity.
Defined.

(** C7, as stated, fails on a truthy [props] that is not an object:
    with [pageProps = {props: 1}] the entry is not set and [pageProps]
    is not returned. *)
Lemma C7_truthy_primitive_props_is_not_embedded :
  ~ embeds_snapshot 0 (RObject 0) (page post_A {[ "props" := VNum 1 ]}).
Proof.
  unfold embeds_snapshot.
  replace (truthy (optional_chain (RObject 0) "props"
                     (page post_A {[ "props" := VNum 1 ]}))) with true
    by reflexivity.
  intros (σ' & Hreturns & _).
  vm_compute in Hreturns. discriminate Hreturns.
Qed.

(** C8: [addApolloState] returns the reference it was given, leaves the
    module variable, the clients and every other object alone, leaves
    every property of [pageProps] other than [props] alone, and in
    [props] leaves every property other than [__APOLLO_STATE__] (and
    the kind of the object) alone.  It fails to return only when
    [props] is a truthy primitive, and then nothing has been written. *)
Theorem C8_addApolloState_frame client pageProps σ :
  match addApolloState client pageProps σ with
  | Normal (p', σ') =>
      p' = pageProps /\
      apolloClient σ' = apolloClient σ /\
      clients σ' = clients σ /\
      (forall l, pageProps <> RObject l -> objects σ' !! l = objects σ !! l) /\
      (forall l key, pageProps = RObject l -> key <> "props" ->
         deref l σ' !! key = deref l σ !! key) /\
      (forall key, key <> APOLLO_STATE_PROP_NAME ->
         own_fields (optional_chain pageProps "props" σ') !! key
         = own_fields (optional_chain pageProps "props" σ) !! key) /\
      isArray (optional_chain pageProps "props" σ')
        = isArray (optional_chain pageProps "props" σ)
  | Throw _ =>
      truthy (optional_chain pageProps "props" σ) = true /\
      isMergeableObject (optional_chain pageProps "props" σ) = false
  end.
Proof.
  destruct (truthy (optional_chain pageProps "props" σ)) eqn:Htruthy.
  - destruct pageProps as [ | | l]; try discriminate.
    pose proof Htruthy as Hprops. unfold optional_chain in Hprops.
    destruct (deref l σ !! "props") as [props|] eqn:Hlookup; [ | discriminate].
    cbn [default] in Hprops.
    destruct props as [ | | b | n | s | a f]; try discriminate.
    + unfold addApolloState. rewrite Htruthy, Hlookup. cbn.
      unfold optional_chain. by rewrite Hlookup.
    + unfold addApolloState. rewrite Htruthy, Hlookup. cbn.
      unfold optional_chain. by rewrite Hlookup.
    + unfold addApolloState. rewrite Htruthy, Hlookup. cbn.
      unfold optional_chain. by rewrite Hlookup.
    + rewrite (addApolloState_object client l σ a f Hlookup).
      repeat split.
      * intros l' Hne. cbn. rewrite lookup_insert_ne; [done | congruence].
      * intros l' key [= <-] Hkey. unfold deref at 1. cbn.
        rewrite lookup_insert_eq. cbn. by rewrite lookup_insert_ne.
      * intros key Hkey. rewrite optional_chain_insert, lookup_insert_eq.
        unfold optional_chain. rewrite Hlookup. cbn.
        by rewrite lookup_insert_ne.
      * rewrite optional_chain_insert, lookup_insert_eq.
        unfold optional_chain. by rewrite Hlookup.
  - rewrite addApolloState_falsy by done. by repeat split.
Qed.

(** ** Reading the snapshot back *)

(** [addApolloState] never touches the top level of [pageProps] at the
    reserved key. *)
Lemma addApolloState_top_level client l σ p' σ' :
  addApolloState client (RObject l) σ = Normal (p', σ') ->
  p' = RObject l /\
  deref l σ' !! APOLLO_STATE_PROP_NAME = deref l σ !! APOLLO_STATE_PROP_NAME.
Proof.
  intros Hreturns.
  destruct (truthy (optional_chain (RObject l) "props" σ)) eqn:Htruthy.
  - pose proof Htruthy as Hprops. unfold optional_chain in Hprops.
    destruct (deref l σ !! "props") as [props|] eqn:Hlookup; [ | discriminate].
    cbn [default] in Hprops.
    destruct props as [ | | b | n | s | a f]; try discriminate;
      try (unfold addApolloState in Hreturns;
           rewrite Htruthy, Hlookup in Hreturns; discriminate).
    rewrite (addApolloState_object client l σ a f Hlookup) in Hreturns.
    injection Hreturns as <- <-. split; [done | ].
    unfold deref at 1. cbn. rewrite lookup_insert_eq. cbn.
    by rewrite lookup_insert_ne.
  - rewrite addApolloState_falsy in Hreturns by done.
    by injection Hreturns as <- <-.
Qed.

(** C10, as amended: [useApollo] reads the snapshot at the top level of
    its argument and [addApolloState] writes it inside [props], so for
    an object [pageProps] that has no top-level [__APOLLO_STATE__]
    entry of its own, [useApollo] applied to what [addApolloState]
    returned reads [undefined] and initializes with no snapshot.  Once
    the [props] object itself is what is handed on, [useApollo] reads
    the embedded snapshot and initializes with it. *)
Theorem C10_useApollo_reads_one_level_above ctx url client l σ :
  deref l σ !! APOLLO_STATE_PROP_NAME = None ->
  reads_no_snapshot ctx url client (RObject l) σ /\
  (forall p' σ' l2,
     addApolloState client (RObject l) σ = Normal (p', σ') ->
     truthy (optional_chain (RObject l) "props" σ) = true ->
     own_fields (optional_chain p' "props" σ') !! APOLLO_STATE_PROP_NAME
       = Some (extract client σ) /\
     useApollo ctx url (RObject l2) (unwrap_props p' l2 σ')
       = Normal (initializeApollo ctx url (extract client σ) (unwrap_props p' l2 σ'))).
Proof.
  intros Htop. split.
  - intros p' σ' Hreturns.
    destruct (addApolloState_top_level client l σ p' σ' Hreturns) as [-> Hsame].
    unfold useApollo, member. by rewrite Hsame, Htop.
  - intros p' σ' l2 Hreturns Htruthy.
    pose proof Htruthy as Hprops. unfold optional_chain in Hprops.
    destruct (deref l σ !! "props") as [props|] eqn:Hlookup; [ | discriminate].
    cbn [default] in Hprops.
    destruct props as [ | | b | n | s | a f]; try discriminate;
      try (unfold addApolloState in Hreturns;
           rewrite Htruthy, Hlookup in Hreturns; discriminate).
    rewrite (addApolloState_object client l σ a f Hlookup) in Hreturns.
    injection Hreturns as <- <-.
    assert (own_fields (optional_chain (RObject l) "props"
              {| apolloClient := apolloClient σ; clients := clients σ;
                 objects := <[l := <["props" := VObject a
                     (<[APOLLO_STATE_PROP_NAME := extract client σ]> f)]> (deref l σ)]>
                   (objects σ) |}) !! APOLLO_STATE_PROP_NAME
            = Some (extract client σ)) as Hdeep.
    { rewrite optional_chain_insert, lookup_insert_eq. cbn. apply lookup_insert_eq. }
    split; [exact Hdeep | ].
    set (σu := unwrap_props _ l2 _) in *.
    assert (member (RObject l2) APOLLO_STATE_PROP_NAME σu
            = Normal (extract client σ)) as Hreads.
    { subst σu. unfold member, unwrap_props, deref at 1. cbn [objects].
      rewrite lookup_insert_eq. cbn [default]. unfold id. by rewrite Hdeep. }
    unfold useApollo. by rewrite Hreads.
Qed.

Lemma C10_useApollo_reads_one_level_above_witness :
  deref 0 (page post_A {[ "props" := object ∅ ]}) !! APOLLO_STATE_PROP_NAME = None /\
  reads_no_snapshot Browser endpoint 0 (RObject 0) (page post_A {[ "props" := object ∅ ]}).
Proof.
  split; [reflexivity | ].
  apply (C10_useApollo_reads_one_level_above Browser endpoint 0 0
           (page post_A {[ "props" := object ∅ ]})).
  reflexivity.
Defined.

(** C10, as stated, fails when [pageProps] carries a top-level
    [__APOLLO_STATE__] entry of its own: [useApollo] reads that entry,
    not [undefined]. *)
Lemma C10_top_level_entry_is_read :
  ~ reads_no_snapshot Browser endpoint 0 (RObject 0)
      (page ∅ {[ APOLLO_STATE_PROP_NAME := object post_A; "props" := object ∅ ]}).
Proof.
  intros Hclaim.
  destruct (Hclaim _ _ eq_refl) as [Hreads _].
  vm_compute in Hreads. discriminate Hreads.
Qed.

(** * Further properties of the module *)

(** ** Resolution of the endpoint *)

Lemma truthy_env_value o :
  truthy (env_value o) = true <-> exists s, o = Some s /\ s <> EmptyString.
Proof.
  destruct o as [s|]; cbn.
  - destruct (String.eqb_spec s EmptyString) as [->|Hne]; cbn.
    + split; [discriminate | ]. by intros (s & [= <-] & Hs).
    + split; [eauto | done].
  - split; [discriminate | ]. by intros (s & [=] & _).
Qed.

(** X1: the module loads exactly when one of the two variables is a
    non-empty string, in either context.  [API_URL] is then the public
    variable if that one is non-empty and the server-side variable
    otherwise: an unset or empty public variable falls through. *)
Theorem X1_load_module_resolves_endpoint ctx env :
  (forall s, NEXT_PUBLIC_WORDPRESS_API_URL env = Some s -> s <> EmptyString ->
     load_module ctx env = Normal (VStr s)) /\
  (forall s, NEXT_PUBLIC_WORDPRESS_API_URL env = None \/
             NEXT_PUBLIC_WORDPRESS_API_URL env = Some EmptyString ->
     WORDPRESS_API_URL env = Some s -> s <> EmptyString ->
     load_module ctx env = Normal (VStr s)) /\
  (forall v, load_module ctx env = Normal v ->
     exists s, v = VStr s /\ s <> EmptyString /\
       (NEXT_PUBLIC_WORDPRESS_API_URL env = Some s \/ WORDPRESS_API_URL env = Some s)).
Proof.
  unfold load_module, js_or. repeat split.
  - intros s Hpub Hs.
    assert (truthy (env_value (NEXT_PUBLIC_WORDPRESS_API_URL env)) = true) as Ht
      by (apply truthy_env_value; eauto).
    rewrite Ht, Ht. by rewrite Hpub.
  - intros s Hpub Hsrv Hs.
    assert (truthy (env_value (NEXT_PUBLIC_WORDPRESS_API_URL env)) = false) as Hf
      by (by destruct Hpub as [-> | ->]).
    assert (truthy (env_value (WORDPRESS_API_URL env)) = true) as Ht
      by (apply truthy_env_value; eauto).
    rewrite Hf, Ht. by rewrite Hsrv.
  - intros v.
    destruct (truthy (env_value (NEXT_PUBLIC_WORDPRESS_API_URL env))) eqn:Hpub.
    + rewrite Hpub. cbn [negb]. intros [= <-].
      apply truthy_env_value in Hpub as (s & Hs & Hne).
      exists s. rewrite Hs. eauto.
    + destruct (truthy (env_value (WORDPRESS_API_URL env))) eqn:Hsrv; cbn [negb].
      * intros [= <-].
        apply truthy_env_value in Hsrv as (s & Hs & Hne).
        exists s. rewrite Hs. eauto.
      * by destruct (window ctx) as [w|e]; [destruct (truthy w) | ].
Qed.

(** ** Provisioning *)

Lemma restore_lookup c data σ i cl :
  clients σ !! i = Some cl ->
  exists cl', clients (restore c data σ) !! i = Some cl' /\
              uri cl' = uri cl /\ ssrMode cl' = ssrMode cl.
Proof.
  intros Hi. unfold restore. destruct (truthy data); [ | eauto]. cbn.
  destruct (decide (i = c)) as [->|Hne].
  - rewrite list_lookup_alter_eq, Hi. cbn. eauto.
  - rewrite list_lookup_alter_ne by done. eauto.
Qed.

Lemma restore_lookup_ne c data σ i :
  i <> c -> clients (restore c data σ) !! i = clients σ !! i.
Proof.
  intros Hne. unfold restore. destruct (truthy data); [ | done]. cbn.
  by rewrite list_lookup_alter_ne.
Qed.

(** X2: a client that [initializeApollo] constructs is bound to
    [API_URL] and has [ssrMode] set exactly on the server; and no call,
    whatever the snapshot, changes the endpoint or the [ssrMode] of a
    client that already exists. *)
Theorem X2_clients_stay_bound_to_their_endpoint ctx url s σ :
  let '(c, σ') := initializeApollo ctx url s σ in
  match apolloClient σ with
  | None =>
      exists cl, clients σ' !! c = Some cl /\ uri cl = url /\
                 ssrMode cl = typeof_window_is_undefined ctx
  | Some c0 => c = c0
  end /\
  (forall i cl, clients σ !! i = Some cl ->
     exists cl', clients σ' !! i = Some cl' /\
                 uri cl' = uri cl /\ ssrMode cl' = ssrMode cl).
Proof.
  destruct (apolloClient σ) as [c0|] eqn:Hmemo.
  - rewrite (initializeApollo_memoized ctx url s σ c0 Hmemo).
    split; [done | ]. intros i cl Hi.
    destruct (truthy s); [by apply restore_lookup | eauto].
  - rewrite (initializeApollo_fresh ctx url s σ Hmemo). cbn [clients]. split.
    + eexists. rewrite lookup_app_r, Nat.sub_diag by lia. by cbn.
    + intros i cl Hi. exists cl.
      by rewrite lookup_app_l by (by eapply lookup_lt_Some).
Qed.

(** X3: a call to [initializeApollo] leaves the props objects alone,
    leaves every client other than the one it returns as it was,
    appends exactly one client when nothing was memoized and none
    otherwise, and changes the module variable only in the browser,
    from unset to the client it returns. *)
Theorem X3_initializeApollo_frame ctx url s σ :
  let '(c, σ') := initializeApollo ctx url s σ in
  objects σ' = objects σ /\
  length (clients σ') =
    length (clients σ) + match apolloClient σ with Some _ => 0 | None => 1 end /\
  (forall i, i <> c -> i < length (clients σ) -> clients σ' !! i = clients σ !! i) /\
  (apolloClient σ' = apolloClient σ \/
   (ctx = Browser /\ apolloClient σ = None /\ apolloClient σ' = Some c)).
Proof.
  destruct (apolloClient σ) as [c0|] eqn:Hmemo.
  - rewrite (initializeApollo_memoized ctx url s σ c0 Hmemo).
    destruct (truthy s).
    + rewrite restore_objects, restore_length, restore_apolloClient.
      repeat split; [lia | | by left].
      intros i Hne _. by apply restore_lookup_ne.
    + repeat split; [lia | by left].
  - rewrite (initializeApollo_fresh ctx url s σ Hmemo).
    cbn [objects clients apolloClient]. repeat split.
    + rewrite length_app. cbn. lia.
    + intros i _ Hi. by rewrite lookup_app_l.
    + destruct ctx; cbn; [by left | by right].
Qed.

(** X4: the module variable only ever refers to a client that has been
    constructed, and so does every reference that [initializeApollo]
    returns: from a state where this holds, it holds after any sequence
    of calls, for the module variable and for every client returned. *)
Theorem X4_references_stay_valid ctx url snapshots :
  forall σ,
  state_wf σ ->
  let '(cs, σ') := initializeApollo_each ctx url snapshots σ in
  state_wf σ' /\
  length (clients σ) <= length (clients σ') /\
  Forall (fun c => c < length (clients σ')) cs.
Proof.
  induction snapshots as [|s rest IH]; intros σ Hwf.
  - cbn. repeat split; [done | lia | constructor].
  - cbn [initializeApollo_each].
    assert (let '(c, σ1) := initializeApollo ctx url s σ in
            state_wf σ1 /\ c < length (clients σ1) /\
            length (clients σ) <= length (clients σ1)) as Hstep.
    { destruct (apolloClient σ) as [c0|] eqn:Hmemo.
      - rewrite (initializeApollo_memoized ctx url s σ c0 Hmemo).
        pose proof (Hwf c0 Hmemo) as Hc0.
        destruct (truthy s); [ | by repeat split].
        rewrite restore_length. repeat split; [ | done | lia].
        intros c. rewrite restore_apolloClient, restore_length. apply Hwf.
      - rewrite (initializeApollo_fresh ctx url s σ Hmemo).
        cbn [clients]. rewrite length_app. cbn [length].
        repeat split; [ | lia | lia].
        intros c. cbn. rewrite length_app. cbn [length].
        destruct ctx; cbn; [done | ]. intros [= <-]. lia. }
    destruct (initializeApollo ctx url s σ) as [c σ1].
    destruct Hstep as (Hwf1 & Hc & Hle).
    specialize (IH σ1 Hwf1).
    destruct (initializeApollo_each ctx url rest σ1) as [cs σ'].
    destruct IH as (Hwf' & Hle' & Hall).
    repeat split; [done | lia | ].
    constructor; [lia | done].
Qed.

Lemma X4_references_stay_valid_witness :
  state_wf initial_state /\
  (let '(cs, σ') :=
     initializeApollo_each Browser endpoint [object post_A; VUndefined] initial_state in
   state_wf σ' /\ Forall (fun c => c < length (clients σ')) cs).
Proof.
  assert (state_wf initial_state) as Hwf by (intros c; discriminate).
  split; [exact Hwf | ].
  pose proof (X4_references_stay_valid Browser endpoint [object post_A; VUndefined]
                initial_state Hwf) as Hvalid.
  destruct (initializeApollo_each Browser endpoint [object post_A; VUndefined]
              initial_state) as [cs σ'].
  destruct Hvalid as (Hwf' & _ & Hall). by split.
Defined.

(** ** What hydration keeps *)










(** X8: hydrating the memoized client with the extract of its own
    cache is without effect: the call returns that client and the
    state is unchanged. *)
Theorem X8_own_extract_is_a_fixed_point ctx url σ c :
  apolloClient σ = Some c ->
  initializeApollo ctx url (extract c σ) σ = (c, σ).
Proof.
  intros Hmemo.
  rewrite (initializeApollo_memoized ctx url _ σ c Hmemo).
  cbn [truthy extract]. f_equal.
  apply restore_same; [apply deepmerge_cache_truthy | ].
  by rewrite deepmerge_self.
Qed.

Lemma X8_own_extract_is_a_fixed_point_witness :
  apolloClient (session post_A) = Some 0 /\
  initializeApollo Browser endpoint (extract 0 (session post_A)) (session post_A)
  = (0, session post_A).
Proof.
  split; [reflexivity | ].
  exact (X8_own_extract_is_a_fixed_point Browser endpoint (session post_A) 0 eq_refl).
Defined.

(** ** From the server render to the browser *)




(** X10: [addApolloState] is idempotent: applied again to what it
    returned, with the same client, it returns the same reference and
    leaves the state as the first application left it; the entry is
    overwritten, it does not accumulate. *)
Theorem X10_addApolloState_twice client pageProps σ p' σ' :
  addApolloState client pageProps σ = Normal (p', σ') ->
  addApolloState client p' σ' = Normal (p', σ').
Proof.
  intros Hreturns.
  destruct (truthy (optional_chain pageProps "props" σ)) eqn:Htruthy.
  - destruct pageProps as [ | | l]; try discriminate.
    pose proof Htruthy as Hprops. unfold optional_chain in Hprops.
    destruct (deref l σ !! "props") as [props|] eqn:Hlookup; [ | discriminate].
    cbn [default] in Hprops.
    destruct props as [ | | b | n | s | a f]; try discriminate;
      try (unfold addApolloState in Hreturns;
           rewrite Htruthy, Hlookup in Hreturns; discriminate).
    rewrite (addApolloState_object client l σ a f Hlookup) in Hreturns.
    injection Hreturns as <- <-.
    set (snapshot := extract client σ).
    set (σ1 := {| apolloClient := apolloClient σ; clients := clients σ;
                  objects := _ |}).
    assert (deref l σ1 = <["props" := VObject a (<[APOLLO_STATE_PROP_NAME := snapshot]> f)]>
                           (deref l σ)) as Hderef.
    { unfold deref at 1. subst σ1. cbn. by rewrite lookup_insert_eq. }
    rewrite (addApolloState_object client l σ1 a
               (<[APOLLO_STATE_PROP_NAME := snapshot]> f))
      by (by rewrite Hderef, lookup_insert_eq).
    do 2 f_equal. subst σ1. cbn [apolloClient clients objects].
    f_equal. rewrite Hderef.
    change (extract client _) with snapshot.
    by rewrite !insert_insert_eq.
  - rewrite addApolloState_falsy in Hreturns by done.
    injection Hreturns as <- <-. by apply addApolloState_falsy.
Qed.

Lemma X10_addApolloState_twice_witness :
  addApolloState 0 (RObject 0) (page post_A {[ "props" := object ∅ ]})
  = Normal (RObject 0,
            page post_A {[ "props" := object {[ APOLLO_STATE_PROP_NAME := object post_A ]} ]}) /\
  addApolloState 0 (RObject 0)
    (page post_A {[ "props" := object {[ APOLLO_STATE_PROP_NAME := object post_A ]} ]})
  = Normal (RObject 0,
            page post_A {[ "props" := object {[ APOLLO_STATE_PROP_NAME := object post_A ]} ]}).
Proof.
  assert (addApolloState 0 (RObject 0) (page post_A {[ "props" := object ∅ ]})
          = Normal (RObject 0,
              page post_A {[ "props" := object {[ APOLLO_STATE_PROP_NAME := object post_A ]} ]}))
    as Hreturns by (vm_compute; reflexivity).
  split; [exact Hreturns | ].
  exact (X10_addApolloState_twice 0 (RObject 0) _ _ _ Hreturns).
Defined.

(** ** Cached fields at any depth *)



